(** * Complex conductivity of a superconducting film (Mattis-Bardeen)

    Shallow embedding of [superconductivity/complex_conductivity.py]:
    the closed-form low-temperature evaluator [limit], the integrating
    evaluator [numeric] and its two kernels.  Floating-point numbers are
    modelled as real numbers; numpy arrays as lists of reals; a complex
    number as the pair (real part, imaginary part).  The special functions
    of [scipy.special], the quadrature [scipy.integrate.quad] and the
    collaborators [fermi] and [reduced_delta_bcs] are section variables. *)

From Stdlib Require Import Reals Lra Lia List.
Import ListNotations.
Open Scope R_scope.

(** ** numpy and scipy.constants *)

(** An argument that is either a Python scalar or a 1-D numpy array. *)
Inductive ndarray : Type :=
| Scalar (x : R)
| Arr (xs : list R).

(** [np.atleast_1d] *)
Definition atleast_1d (a : ndarray) : list R :=
  match a with
  | Scalar x => [x]
  | Arr xs => xs
  end.

(** A complex number: (real part, imaginary part). *)
Definition Cx : Type := (R * R)%type.

(** [np.real] and [np.imag] of a complex scalar; a real scalar is read by
    numpy as a complex number with zero imaginary part. *)
Definition np_real (z : Cx) : R := fst z.
Definition np_imag (z : Cx) : R := snd z.
Definition of_real (x : R) : Cx := (x, 0).

(** [np.ones(n)] *)
Definition np_ones (n : nat) : list R := repeat 1 n.

(** [np.ones(n) * a] for an array [a] of size 1 (broadcast). *)
Definition ones_times (n : nat) (a : list R) : list R :=
  map (fun o => o * nth 0 a 0) (np_ones n).

(** [scipy.constants.h] and [scipy.constants.k] (exact SI values). *)
Definition sc_h : R := 6.62607015e-34.
Definition sc_k : R := 1.380649e-23.

(** Python exceptions raised by [limit]. *)
Inductive error : Type :=
| AssertionError
| ValueError.

(** [(temp > 0).all()] *)
Definition all_gt0 (xs : list R) : bool :=
  forallb (fun x => if Rlt_dec 0 x then true else false) xs.

(** ** The asymptotic evaluator [limit] *)

Section Limit.

(** [scipy.special.i0] and [scipy.special.k0]. *)
Variables i0 k0 : R -> R.

(** Lines 46-51: broadcasting a size-1 argument against the other one. *)
Definition broadcast (temp freq : list R) : error + (list R * list R) :=
  if (Nat.eqb (length temp) 1 && negb (Nat.eqb (length freq) 1))%bool
  then inr (ones_times (length freq) temp, freq)
  else if (Nat.eqb (length freq) 1 && negb (Nat.eqb (length temp) 1))%bool
  then inr (temp, ones_times (length temp) freq)
  else if negb (Nat.eqb (length freq) (length temp))
  then inl ValueError
  else inr (temp, freq).

(** Lines 56-65 at one index.  The source fills [sigma1] and [sigma2]
    through the masks [temp == 0] and [temp != 0]; entry by entry this is
    the case split below.  (After the assertion of line 45 every entry is
    positive, so the mask [temp != 0] selects every index and
    [temp[temp != 0]] is [temp] itself.)  The pair is
    [sigma1 + 1j * sigma2].  Division by zero is 0 in [R], whereas numpy
    gives inf or nan: at [delta1 = 0] ([eta = 0]) the code computes
    [sqrt(2 pi / 0) = inf] and returns [nan + nan j]; the sign and bound theorems
    below assume [delta1 > 0] and [f > 0]. *)
Definition limit_entry (delta1 delta2 T f : R) : Cx :=
  if Req_EM_T T 0 then
    (PI * delta2 / (sc_h * f), PI * delta1 / (sc_h * f))
  else
    let xi := sc_h * f / (2 * sc_k * T) in
    let eta := delta1 / (sc_k * T) in
    (4 * delta1 / (sc_h * f) * exp (- eta) * sinh xi * k0 xi +
       PI * delta2 / (sc_h * f) *
         (1 + 2 * delta1 / (sc_k * T) * exp (- eta) * exp (- xi) * i0 xi),
     PI * delta1 / (sc_h * f) *
       (1 - sqrt (2 * PI / eta) * exp (- eta) -
          2 * exp (- eta) * exp (- xi) * i0 xi)).

(** Lines 42-43: [delta1 = np.real(delta0)], [delta2 = np.imag(delta1)]. *)
Definition delta1_of (delta0 : Cx) : R := np_real delta0.
Definition delta2_of (delta0 : Cx) : R := np_imag (of_real (delta1_of delta0)).

(** [limit(temp, freq, delta0)] *)
Definition limit (temp freq : ndarray) (delta0 : Cx) : error + list Cx :=
  let temp := atleast_1d temp in
  let freq := atleast_1d freq in
  let delta1 := delta1_of delta0 in
  let delta2 := delta2_of delta0 in
  if negb (all_gt0 temp) then inl AssertionError
  else
    match broadcast temp freq with
    | inl e => inl e
    | inr (temp, freq) =>
        inr (map (fun '(T, f) => limit_entry delta1 delta2 T f)
                 (combine temp freq))
    end.

End Limit.

(** ** The integrating evaluator [numeric] and its kernels *)

(** Integration bounds of [scipy.integrate.quad]: a finite number or
    [np.inf]. *)
Inductive bound : Type :=
| Fin (x : R)
| PosInf.

Section Numeric.

(** [fermi(e, t)] and [reduced_delta_bcs(reduced_temp, bcs)]. *)
Variable fermi : R -> R -> R.
Variable reduced_delta_bcs : R -> R -> R.
(** [it.quad(g, a, b)] returns the pair [(y, abserr)]: the value of the
    integral and the estimate of its absolute error. *)
Variable quad : (R -> R) -> bound -> bound -> R * R.

(** [sigma1_kernel(e, t, w)] *)
Definition sigma1_kernel (e t w : R) : R :=
  2 * (fermi e t - fermi (e + w) t) * (e ^ 2 + w * e + 1) /
  (w * sqrt (e ^ 2 - 1) * sqrt ((e + w) ^ 2 - 1)).

(** [sigma2_kernel(e, t, w)] *)
Definition sigma2_kernel (e t w : R) : R :=
  (1 - 2 * fermi (e + w) t) * (e ^ 2 + w * e + 1) /
  (w * sqrt (1 - e ^ 2) * sqrt ((e + w) ^ 2 - 1)).

(** Body of the loop of lines 104-107 at index [ii]: the two quadratures,
    each read through [[0]]. *)
Definition numeric_step (t w : list R) (ii : nat) : Cx :=
  let a1 := Fin 1 in
  let b1 := PosInf in
  let b2 := Fin 1 in
  let a2 := Fin (1 - nth ii w 0) in
  (fst (quad (fun e => sigma1_kernel e (nth ii t 0) (nth ii w 0)) a1 b1),
   fst (quad (fun e => sigma2_kernel e (nth ii t 0) (nth ii w 0)) a2 b2)).

(** [numeric(temp, freq, delta0, bcs)]; [freq] is a scalar. *)
Definition numeric (temp : ndarray) (freq delta0 bcs : R) : list Cx :=
  let temp := atleast_1d temp in
  let delta :=
    map (fun T => delta0 * reduced_delta_bcs (bcs * sc_k * T / delta0) bcs)
        temp in
  let t := map (fun '(T, d) => T * sc_k / d) (combine temp delta) in
  let w := map (fun d => sc_h * freq / d) delta in
  map (numeric_step t w) (seq 0 (length temp)).

(** The kernels as the specification writes them. *)
Definition sigma1_kernel_spec (e t w : R) : R :=
  2 * (fermi e t - fermi (e + w) t) * (Rsqr e + w * e + 1) /
  (w * sqrt (Rsqr e - 1) * sqrt (Rsqr (e + w) - 1)).

Definition sigma2_kernel_spec (e t w : R) : R :=
  (1 - 2 * fermi (e + w) t) * (Rsqr e + w * e + 1) /
  (w * sqrt (1 - Rsqr e) * sqrt (Rsqr (e + w) - 1)).

(** One entry of [numeric] as the specification describes it: the gap
    Delta(T), the reduced variables t = kT/Delta and w = hf/Delta, the real
    part integrated over [1, inf) and the imaginary part over [1-w, 1]. *)
Definition numeric_entry_spec (freq delta0 bcs T : R) : Cx :=
  let Delta := delta0 * reduced_delta_bcs (bcs * sc_k * T / delta0) bcs in
  let t := sc_k * T / Delta in
  let w := sc_h * freq / Delta in
  (fst (quad (fun e => sigma1_kernel e t w) (Fin 1) PosInf),
   fst (quad (fun e => sigma2_kernel e t w) (Fin (1 - w)) (Fin 1))).

End Numeric.

(** ** Readings of the specification *)

(** Broadcast size of two argument sizes that broadcast together. *)
Definition bsize (nt nf : nat) : nat := if Nat.eqb nt 1 then nf else nt.

(** Sizes accepted by the broadcasting rule. *)
Definition compatible (nt nf : nat) : Prop := nt = 1%nat \/ nf = 1%nat \/ nt = nf.

(** A size-1 array replicated to size [n]; other arrays unchanged. *)
Definition expand (n : nat) (xs : list R) : list R :=
  if Nat.eqb (length xs) 1 then repeat (nth 0 xs 0) n else xs.

(** Section 4.1, step 4 of the specification, for a nonzero temperature. *)
Definition sigma_spec (i0 k0 : R -> R) (delta1 delta2 T f : R) : Cx :=
  let xi := sc_h * f / (2 * sc_k * T) in
  let eta := delta1 / (sc_k * T) in
  (4 * delta1 / (sc_h * f) * exp (- eta) * sinh xi * k0 xi +
     PI * delta2 / (sc_h * f) *
       (1 + 2 * delta1 / (sc_k * T) * exp (- eta) * exp (- xi) * i0 xi),
   PI * delta1 / (sc_h * f) *
     (1 - sqrt (2 * PI / eta) * exp (- eta) -
        2 * exp (- eta) * exp (- xi) * i0 xi)).

(** ** List lemmas *)

Lemma map_seq_nth (A : Type) (f : R -> A) (l : list R) :
  map (fun i => f (nth i l 0)) (seq 0 (length l)) = map f l.
Proof.
  induction l as [|x l IH]; [reflexivity|].
  simpl. f_equal. rewrite <- seq_shift, map_map. exact IH.
Qed.

Lemma nth_map_lt (A B : Type) (f : A -> B) (l : list A) (i : nat) (a : A) (b : B) :
  (i < length l)%nat -> nth i (map f l) b = f (nth i l a).
Proof.
  intros H. rewrite (nth_indep _ b (f a)) by (rewrite length_map; exact H).
  apply map_nth.
Qed.

(** ** Claims about [numeric] and its kernels *)

(** C4: [numeric] computes, entry by entry and in input order, the gap
    Delta(T) = delta0 * reduced_delta_bcs(bcs k T / delta0, bcs), the
    reduced variables t = kT/Delta and w = hf/Delta, and integrates
    [sigma1_kernel] over [1, inf) for the real part and [sigma2_kernel] over
    [1-w, 1] for the imaginary part. *)
Theorem numeric_entrywise :
  forall fermi reduced_delta_bcs quad temp freq delta0 bcs,
    numeric fermi reduced_delta_bcs quad temp freq delta0 bcs =
    map (numeric_entry_spec fermi reduced_delta_bcs quad freq delta0 bcs)
        (atleast_1d temp).
Proof.
  intros fermi rdb quad temp freq delta0 bcs.
  unfold numeric. set (l := atleast_1d temp).
  rewrite <- (map_seq_nth _ (numeric_entry_spec fermi rdb quad freq delta0 bcs) l).
  apply map_ext_in. intros ii Hin.
  apply in_seq in Hin. destruct Hin as [_ Hlt]. simpl in Hlt.
  set (D := fun T => delta0 * rdb (bcs * sc_k * T / delta0) bcs).
  assert (HD : nth ii (map D l) 0 = D (nth ii l 0)).
  { apply nth_map_lt. exact Hlt. }
  assert (Ht : nth ii (map (fun '(T, d) => T * sc_k / d) (combine l (map D l))) 0
               = nth ii l 0 * sc_k / D (nth ii l 0)).
  { rewrite (nth_map_lt _ _ _ _ _ (0, 0))
      by (rewrite length_combine, length_map; lia).
    rewrite combine_nth by (rewrite length_map; reflexivity).
    rewrite HD. reflexivity. }
  assert (Hw : nth ii (map (fun d => sc_h * freq / d) (map D l)) 0
               = sc_h * freq / D (nth ii l 0)).
  { rewrite (nth_map_lt _ _ _ _ _ 0) by (rewrite length_map; lia).
    rewrite HD. reflexivity. }
  unfold numeric_step, numeric_entry_spec. fold (D (nth ii l 0)).
  rewrite Ht, Hw, (Rmult_comm (nth ii l 0) sc_k). reflexivity.
Qed.

(** C5: the two kernels are the formulas of the specification:
    sigma1_kernel = 2 (f(e,t) - f(e+w,t)) (e^2 + w e + 1) /
    (w sqrt(e^2-1) sqrt((e+w)^2-1)) and sigma2_kernel =
    (1 - 2 f(e+w,t)) (e^2 + w e + 1) / (w sqrt(1-e^2) sqrt((e+w)^2-1)). *)
Theorem kernels_match_spec :
  forall fermi e t w,
    sigma1_kernel fermi e t w = sigma1_kernel_spec fermi e t w /\
    sigma2_kernel fermi e t w = sigma2_kernel_spec fermi e t w.
Proof.
  intros fermi e t w.
  unfold sigma1_kernel, sigma1_kernel_spec, sigma2_kernel, sigma2_kernel_spec.
  rewrite <- !Rsqr_pow2. split; reflexivity.
Qed.

(** ** Lemmas about the assertion and the broadcasting of [limit] *)

Lemma all_gt0_true (xs : list R) :
  all_gt0 xs = true <-> Forall (fun x => 0 < x) xs.
Proof.
  unfold all_gt0. rewrite forallb_forall, Forall_forall.
  split; intros H x Hx; specialize (H x Hx).
  - destruct (Rlt_dec 0 x); [assumption | discriminate].
  - destruct (Rlt_dec 0 x); [reflexivity | contradiction].
Qed.

Lemma all_gt0_false (xs : list R) :
  all_gt0 xs = false <-> Exists (fun x => x <= 0) xs.
Proof.
  induction xs as [|x xs IH]; simpl.
  - split; [discriminate | intros H; inversion H].
  - destruct (Rlt_dec 0 x) as [Hx | Hx]; simpl.
    + rewrite IH. split; intros H.
      * apply Exists_cons_tl. exact H.
      * inversion H; subst; [lra | assumption].
    + split; intros _; [apply Exists_cons_hd; lra | reflexivity].
Qed.

Lemma all_gt0_repeat (x : R) (n : nat) :
  all_gt0 (repeat x (S n)) = all_gt0 [x].
Proof.
  induction n as [|n IH]; [reflexivity|].
  change (repeat x (S (S n))) with (x :: repeat x (S n)).
  unfold all_gt0 in *. simpl in *. rewrite IH. destruct (Rlt_dec 0 x); reflexivity.
Qed.

Lemma ones_times_repeat (n : nat) (a : list R) :
  ones_times n a = repeat (nth 0 a 0) n.
Proof.
  unfold ones_times, np_ones. induction n as [|n IH]; [reflexivity|].
  simpl. rewrite IH, Rmult_1_l. reflexivity.
Qed.

Lemma length_one_repeat (xs : list R) :
  length xs = 1%nat -> repeat (nth 0 xs 0) 1 = xs.
Proof.
  destruct xs as [|x [|y ys]]; simpl; intros H; try discriminate; reflexivity.
Qed.

Lemma broadcast_compatible (temp freq : list R) :
  compatible (length temp) (length freq) ->
  broadcast temp freq =
  inr (expand (bsize (length temp) (length freq)) temp,
       expand (bsize (length temp) (length freq)) freq).
Proof.
  unfold compatible, broadcast, expand, bsize. intros Hc.
  rewrite !ones_times_repeat.
  destruct (Nat.eqb_spec (length temp) 1) as [Ht | Ht];
  destruct (Nat.eqb_spec (length freq) 1) as [Hf | Hf]; simpl andb; simpl negb.
  - rewrite Hf, Ht, Nat.eqb_refl. simpl negb.
    rewrite !length_one_repeat by assumption. reflexivity.
  - reflexivity.
  - reflexivity.
  - destruct Hc as [? | [? | Heq]]; try contradiction.
    rewrite Heq, Nat.eqb_refl. reflexivity.
Qed.

Lemma expand_positive (n : nat) (xs : list R) :
  Forall (fun x => 0 < x) xs -> Forall (fun x => 0 < x) (expand n xs).
Proof.
  unfold expand. intros H.
  destruct (Nat.eqb_spec (length xs) 1) as [Hl | _]; [|exact H].
  apply Forall_forall. intros x Hx. apply repeat_spec in Hx. subst x.
  rewrite Forall_forall in H. apply H.
  destruct xs; [discriminate | left; reflexivity].
Qed.

Lemma limit_entry_positive (i0 k0 : R -> R) (delta1 delta2 T f : R) :
  0 < T -> limit_entry i0 k0 delta1 delta2 T f = sigma_spec i0 k0 delta1 delta2 T f.
Proof.
  intros HT. unfold limit_entry, sigma_spec.
  destruct (Req_EM_T T 0); [lra | reflexivity].
Qed.

Lemma limit_scalar_positive (i0 k0 : R -> R) (T f : R) (delta0 : Cx) :
  0 < T ->
  limit i0 k0 (Scalar T) (Scalar f) delta0 =
  inr [limit_entry i0 k0 (delta1_of delta0) (delta2_of delta0) T f].
Proof.
  intros HT. unfold limit, all_gt0. simpl.
  destruct (Rlt_dec 0 T); [reflexivity | contradiction].
Qed.

(** ** Claims about [limit] *)

(** C1 (code defect): a zero temperature never reaches the zero-temperature
    branch of lines 59-60.  The assertion of line 45 tests [temp > 0]
    (its message reads "Temperature must be >= 0."), so [limit] with
    [temp = 0] raises AssertionError for every frequency and gap. *)
Theorem limit_zero_temp_rejected :
  forall i0 k0 f delta0,
    limit i0 k0 (Scalar 0) (Scalar f) delta0 = inl AssertionError.
Proof.
  intros i0 k0 f delta0. unfold limit, all_gt0. simpl.
  destruct (Rlt_dec 0 0); [lra | reflexivity].
Qed.

(** C2: [delta2 = np.imag(np.real(delta0))] is 0 for every gap [delta0], so
    the term of [sigma1] proportional to [delta2] vanishes: [sigma1] is 0 in
    the zero-temperature branch and
    4 delta1/(h f) exp(-eta) sinh(xi) K0(xi) otherwise. *)
Theorem limit_delta2_zero :
  forall i0 k0 delta0,
    delta2_of delta0 = 0 /\
    forall T f,
      fst (limit_entry i0 k0 (delta1_of delta0) (delta2_of delta0) T f) =
      if Req_EM_T T 0 then 0
      else
        let xi := sc_h * f / (2 * sc_k * T) in
        let eta := delta1_of delta0 / (sc_k * T) in
        4 * delta1_of delta0 / (sc_h * f) * exp (- eta) * sinh xi * k0 xi.
Proof.
  intros i0 k0 delta0.
  assert (H2 : delta2_of delta0 = 0) by reflexivity.
  split; [exact H2|].
  intros T f. unfold limit_entry. rewrite H2.
  destruct (Req_EM_T T 0); simpl; unfold Rdiv.
  - rewrite Rmult_0_r, Rmult_0_l. reflexivity.
  - rewrite Rmult_0_r, !Rmult_0_l, Rplus_0_r. reflexivity.
Qed.

(** C3: when every temperature is positive and the sizes broadcast, [limit]
    returns, in the order of the broadcast arrays, sigma1 + i sigma2 with
    the closed-form expressions of section 4.1, step 4 (xi = hf/(2kT),
    eta = delta1/(kT)). *)
Theorem limit_positive_formula :
  forall i0 k0 temp freq delta0,
    Forall (fun T => 0 < T) temp ->
    compatible (length temp) (length freq) ->
    limit i0 k0 (Arr temp) (Arr freq) delta0 =
    inr (map (fun '(T, f) => sigma_spec i0 k0 (delta1_of delta0) (delta2_of delta0) T f)
             (combine (expand (bsize (length temp) (length freq)) temp)
                      (expand (bsize (length temp) (length freq)) freq))).
Proof.
  intros i0 k0 temp freq delta0 Hpos Hc.
  unfold limit. simpl atleast_1d.
  apply all_gt0_true in Hpos as Hall. rewrite Hall. simpl negb.
  rewrite broadcast_compatible by exact Hc. f_equal.
  apply map_ext_in. intros [T f] Hin.
  apply limit_entry_positive.
  apply in_combine_l in Hin.
  apply (expand_positive (bsize (length temp) (length freq))) in Hpos.
  rewrite Forall_forall in Hpos. exact (Hpos T Hin).
Qed.

Lemma limit_positive_formula_witness :
  Forall (fun T => 0 < T) [1; 2] /\ compatible (length [1; 2]) (length [1e9]) /\
  limit (fun _ => 0) (fun _ => 0) (Arr [1; 2]) (Arr [1e9]) (2e-23, 0) =
  inr (map (fun '(T, f) => sigma_spec (fun _ => 0) (fun _ => 0)
                             (delta1_of (2e-23, 0)) (delta2_of (2e-23, 0)) T f)
           (combine (expand (bsize 2 1) [1; 2]) (expand (bsize 2 1) [1e9]))).
Proof.
  assert (Hp : Forall (fun T => 0 < T) [1; 2]) by (repeat constructor; lra).
  assert (Hc : compatible (length [1; 2]) (length [1e9])) by (right; left; reflexivity).
  split; [exact Hp | split; [exact Hc|]].
  apply (limit_positive_formula (fun _ => 0) (fun _ => 0) [1; 2] [1e9] (2e-23, 0) Hp Hc).
Defined.

(** C6 (code defect): [limit] raises AssertionError exactly when some
    entry of [temp] is [<= 0], before broadcasting or any arithmetic;
    entries equal to 0 are rejected, not only negative ones. *)
Theorem limit_assertion_iff_nonpositive :
  forall i0 k0 temp freq delta0,
    limit i0 k0 temp freq delta0 = inl AssertionError <->
    Exists (fun T => T <= 0) (atleast_1d temp).
Proof.
  intros i0 k0 temp freq delta0. rewrite <- all_gt0_false.
  unfold limit, broadcast.
  destruct (all_gt0 (atleast_1d temp)); simpl negb.
  - split; [|discriminate].
    repeat match goal with
           | |- context [if ?b then _ else _] => destruct b
           end; discriminate.
  - split; reflexivity.
Qed.

(** When every temperature is positive and both arrays have more than one
    entry but different sizes, [limit] raises ValueError (lines 50-51). *)
Lemma limit_shape_error :
  forall i0 k0 temp freq delta0,
    Forall (fun T => 0 < T) temp ->
    (1 < length temp)%nat -> (1 < length freq)%nat ->
    length temp <> length freq ->
    limit i0 k0 (Arr temp) (Arr freq) delta0 = inl ValueError.
Proof.
  intros i0 k0 temp freq delta0 Hpos Ht Hf Hne.
  unfold limit, broadcast. simpl atleast_1d.
  apply all_gt0_true in Hpos. rewrite Hpos. simpl negb.
  destruct (Nat.eqb_spec (length temp) 1); [lia|].
  destruct (Nat.eqb_spec (length freq) 1); [lia|].
  destruct (Nat.eqb_spec (length freq) (length temp)); [lia|].
  reflexivity.
Qed.

(** C7 (code defect, the one of C1 and C6): with the non-negative
    temperatures [0, 0, 0] against the frequencies [1e9, 2e9], sizes 3 and 2
    that do not broadcast, [limit] does not raise ValueError (the size check
    of lines 50-51) but AssertionError, because the assertion of line 45
    rejects zero temperatures before the sizes are compared.  With positive
    temperatures the size check is reached ([limit_shape_error]). *)
Theorem limit_shape_error_zero_temp :
  forall i0 k0 delta0,
    limit i0 k0 (Arr [0; 0; 0]) (Arr [1e9; 2e9]) delta0 = inl AssertionError /\
    limit i0 k0 (Arr [0; 0; 0]) (Arr [1e9; 2e9]) delta0 <> inl ValueError.
Proof.
  intros i0 k0 delta0.
  assert (H : limit i0 k0 (Arr [0; 0; 0]) (Arr [1e9; 2e9]) delta0 = inl AssertionError).
  { apply limit_assertion_iff_nonpositive. simpl. apply Exists_cons_hd. lra. }
  split; [exact H | rewrite H; discriminate].
Qed.

(** C8: a scalar frequency against [N > 1] temperatures gives the same
    outcome as the frequency repeated [N] times, and a scalar temperature
    against [N > 1] frequencies the same as the temperature repeated [N]
    times (both when the call succeeds and when it fails). *)
Theorem limit_broadcast_equiv :
  forall i0 k0 temp freq T f delta0,
    (1 < length temp)%nat -> (1 < length freq)%nat ->
    limit i0 k0 (Arr temp) (Scalar f) delta0 =
      limit i0 k0 (Arr temp) (Arr (repeat f (length temp))) delta0 /\
    limit i0 k0 (Scalar T) (Arr freq) delta0 =
      limit i0 k0 (Arr (repeat T (length freq))) (Arr freq) delta0.
Proof.
  intros i0 k0 temp freq T f delta0 Ht Hf. split.
  - unfold limit, broadcast. simpl atleast_1d.
    destruct (all_gt0 temp); simpl negb; [|reflexivity].
    rewrite repeat_length, ones_times_repeat. simpl nth.
    destruct (Nat.eqb_spec (length temp) 1); [lia|]. simpl.
    rewrite Nat.eqb_refl, ones_times_repeat. reflexivity.
  - destruct (length freq) as [|n] eqn:Hn; [lia|].
    unfold limit, broadcast. cbn [atleast_1d length].
    rewrite all_gt0_repeat. destruct (all_gt0 [T]); cbn [negb]; [|reflexivity].
    rewrite repeat_length, Hn, ones_times_repeat.
    destruct (Nat.eqb_spec (S n) 1); [lia|].
    rewrite !Nat.eqb_refl. cbn [andb negb nth]. reflexivity.
Qed.

Lemma limit_broadcast_equiv_witness :
  lt 1 (length [1; 2; 3]) /\ lt 1 (length [5e9; 6e9]) /\
  limit (fun _ => 0) (fun _ => 0) (Arr [1; 2; 3]) (Scalar 5e9) (2e-23, 0) =
    limit (fun _ => 0) (fun _ => 0) (Arr [1; 2; 3]) (Arr [5e9; 5e9; 5e9]) (2e-23, 0).
Proof.
  assert (H1 : lt 1 (length [1; 2; 3])) by (simpl; lia).
  assert (H2 : lt 1 (length [5e9; 6e9])) by (simpl; lia).
  split; [exact H1|]. split; [exact H2|].
  exact (proj1 (limit_broadcast_equiv (fun _ => 0) (fun _ => 0) [1; 2; 3] [5e9; 6e9]
                  1 5e9 (2e-23, 0) H1 H2)).
Defined.

(** C10: [limit] takes scalars as well as arrays and, whenever it returns,
    returns a list of complex numbers whose length is the broadcast size of
    the two arguments; for a scalar temperature and a scalar frequency the
    result has exactly one entry. *)
Theorem limit_result_size :
  forall i0 k0 temp freq delta0 s,
    limit i0 k0 temp freq delta0 = inr s ->
    length s = bsize (length (atleast_1d temp)) (length (atleast_1d freq)).
Proof.
  intros i0 k0 temp freq delta0 s H.
  unfold limit, broadcast in H.
  set (lt := atleast_1d temp) in *. set (lf := atleast_1d freq) in *.
  destruct (all_gt0 lt); simpl negb in H; [|discriminate].
  unfold bsize.
  destruct (Nat.eqb_spec (length lt) 1) as [Ht | Ht];
  destruct (Nat.eqb_spec (length lf) 1) as [Hf | Hf]; simpl in H.
  - rewrite Ht, Hf in H. simpl in H. injection H as <-.
    rewrite length_map, length_combine, Ht, Hf. reflexivity.
  - injection H as <-.
    rewrite length_map, length_combine, ones_times_repeat, repeat_length.
    apply Nat.min_id.
  - injection H as <-.
    rewrite length_map, length_combine, ones_times_repeat, repeat_length.
    apply Nat.min_id.
  - destruct (Nat.eqb_spec (length lf) (length lt)) as [He | He];
      simpl in H; [|discriminate].
    injection H as <-. rewrite length_map, length_combine, He. apply Nat.min_id.
Qed.

Lemma limit_result_size_witness :
  limit (fun _ => 0) (fun _ => 0) (Scalar 0.1) (Scalar 1e9) (2e-23, 0) =
    inr [limit_entry (fun _ => 0) (fun _ => 0) (delta1_of (2e-23, 0))
           (delta2_of (2e-23, 0)) 0.1 1e9] /\
  length [limit_entry (fun _ => 0) (fun _ => 0) (delta1_of (2e-23, 0))
            (delta2_of (2e-23, 0)) 0.1 1e9] = 1%nat.
Proof.
  assert (H : limit (fun _ => 0) (fun _ => 0) (Scalar 0.1) (Scalar 1e9) (2e-23, 0) =
    inr [limit_entry (fun _ => 0) (fun _ => 0) (delta1_of (2e-23, 0))
           (delta2_of (2e-23, 0)) 0.1 1e9]).
  { apply limit_scalar_positive. lra. }
  split; [exact H|].
  exact (limit_result_size (fun _ => 0) (fun _ => 0) _ _ _ _ H).
Defined.

(** C9 (as stated): with a quadrature reporting an error estimate of 1e10
    (a failed integration), [numeric] still returns a plain list of values,
    the same as with a quadrature reporting an exact result. *)
Lemma numeric_error_estimate_cex :
  numeric (fun _ _ => 0) (fun _ _ => 1) (fun _ _ _ => (0, 1e10))
          (Arr [0.1]) 1e9 2e-23 1.764 = [(0, 0)] /\
  numeric (fun _ _ => 0) (fun _ _ => 1) (fun _ _ _ => (0, 1e10))
          (Arr [0.1]) 1e9 2e-23 1.764 =
  numeric (fun _ _ => 0) (fun _ _ => 1) (fun _ _ _ => (0, 0))
          (Arr [0.1]) 1e9 2e-23 1.764.
Proof. split; reflexivity. Qed.

(** C9 (amended): [numeric] reads each quadrature only through its value
    ([[0]]): two quadratures returning the same values give the same
    result, whatever error estimates they report, and [numeric] has no
    failure outcome. *)
Theorem numeric_ignores_error_estimate :
  forall fermi reduced_delta_bcs quad1 quad2 temp freq delta0 bcs,
    (forall g a b, fst (quad1 g a b) = fst (quad2 g a b)) ->
    numeric fermi reduced_delta_bcs quad1 temp freq delta0 bcs =
    numeric fermi reduced_delta_bcs quad2 temp freq delta0 bcs.
Proof.
  intros fermi rdb quad1 quad2 temp freq delta0 bcs Hq.
  unfold numeric. apply map_ext. intros ii.
  unfold numeric_step. rewrite !Hq. reflexivity.
Qed.

Lemma numeric_ignores_error_estimate_witness :
  (forall g a b, fst ((fun (_ : R -> R) (_ _ : bound) => (0, 1e10)) g a b) =
                 fst ((fun (_ : R -> R) (_ _ : bound) => (0, 0)) g a b)) /\
  numeric (fun _ _ => 0) (fun _ _ => 1) (fun _ _ _ => (0, 1e10))
          (Arr [0.1; 0.2]) 1e9 2e-23 1.764 =
  numeric (fun _ _ => 0) (fun _ _ => 1) (fun _ _ _ => (0, 0))
          (Arr [0.1; 0.2]) 1e9 2e-23 1.764.
Proof.
  assert (Hq : forall g a b,
             fst ((fun (_ : R -> R) (_ _ : bound) => (0, 1e10)) g a b) =
             fst ((fun (_ : R -> R) (_ _ : bound) => (0, 0)) g a b))
    by (intros; reflexivity).
  split; [exact Hq|].
  exact (numeric_ignores_error_estimate (fun _ _ => 0) (fun _ _ => 1) _ _
           (Arr [0.1; 0.2]) 1e9 2e-23 1.764 Hq).
Defined.

(** ** Further properties of the code *)

(** *** Helper lemmas *)

Lemma broadcast_incompatible (temp freq : list R) :
  ~ compatible (length temp) (length freq) -> broadcast temp freq = inl ValueError.
Proof.
  unfold compatible, broadcast. intros Hc.
  destruct (Nat.eqb_spec (length temp) 1); [exfalso; tauto|].
  destruct (Nat.eqb_spec (length freq) 1); [exfalso; tauto|].
  destruct (Nat.eqb_spec (length freq) (length temp)); [exfalso; auto|].
  reflexivity.
Qed.

Lemma broadcast_same_length (temp freq : list R) :
  length temp = length freq -> broadcast temp freq = inr (temp, freq).
Proof.
  intros Hl. unfold broadcast. rewrite Hl, Nat.eqb_refl.
  destruct (Nat.eqb (length freq) 1); reflexivity.
Qed.


Lemma combine_app_eq (A B : Type) (l1 l2 : list A) (m1 m2 : list B) :
  length l1 = length m1 ->
  combine (l1 ++ l2) (m1 ++ m2) = combine l1 m1 ++ combine l2 m2.
Proof.
  revert m1. induction l1 as [|x l1 IH]; intros [|y m1] Hl; try discriminate.
  - reflexivity.
  - simpl. rewrite IH by (injection Hl; auto). reflexivity.
Qed.

Lemma numeric_map_entry fermi reduced_delta_bcs quad temp freq delta0 bcs :
  numeric fermi reduced_delta_bcs quad temp freq delta0 bcs =
  map (numeric_entry_spec fermi reduced_delta_bcs quad freq delta0 bcs)
      (atleast_1d temp).
Proof.
  unfold numeric. set (l := atleast_1d temp).
  rewrite <- (map_seq_nth _ (numeric_entry_spec fermi reduced_delta_bcs quad freq delta0 bcs) l).
  apply map_ext_in. intros ii Hin.
  apply in_seq in Hin. destruct Hin as [_ Hlt]. simpl in Hlt.
  set (D := fun T => delta0 * reduced_delta_bcs (bcs * sc_k * T / delta0) bcs).
  assert (HD : nth ii (map D l) 0 = D (nth ii l 0)) by (apply nth_map_lt; exact Hlt).
  assert (Ht : nth ii (map (fun '(T, d) => T * sc_k / d) (combine l (map D l))) 0
               = nth ii l 0 * sc_k / D (nth ii l 0)).
  { rewrite (nth_map_lt _ _ _ _ _ (0, 0))
      by (rewrite length_combine, length_map; lia).
    rewrite combine_nth by (rewrite length_map; reflexivity).
    rewrite HD. reflexivity. }
  assert (Hw : nth ii (map (fun d => sc_h * freq / d) (map D l)) 0
               = sc_h * freq / D (nth ii l 0)).
  { rewrite (nth_map_lt _ _ _ _ _ 0) by (rewrite length_map; lia).
    rewrite HD. reflexivity. }
  unfold numeric_step, numeric_entry_spec. fold (D (nth ii l 0)).
  rewrite Ht, Hw, (Rmult_comm (nth ii l 0) sc_k). reflexivity.
Qed.

Lemma compatible_dec (nt nf : nat) : {compatible nt nf} + {~ compatible nt nf}.
Proof.
  unfold compatible.
  destruct (Nat.eq_dec nt 1); [left; auto|].
  destruct (Nat.eq_dec nf 1); [left; auto|].
  destruct (Nat.eq_dec nt nf); [left; auto | right; tauto].
Defined.




(** *** Outcomes of [limit] *)

(** [limit] raises ValueError exactly when every temperature is positive and
    the two sizes do not broadcast, and returns a result exactly when every
    temperature is positive and the sizes broadcast. *)
Theorem limit_outcomes :
  forall i0 k0 temp freq delta0,
    (limit i0 k0 temp freq delta0 = inl ValueError <->
       Forall (fun T => 0 < T) (atleast_1d temp) /\
       ~ compatible (length (atleast_1d temp)) (length (atleast_1d freq))) /\
    ((exists s, limit i0 k0 temp freq delta0 = inr s) <->
       Forall (fun T => 0 < T) (atleast_1d temp) /\
       compatible (length (atleast_1d temp)) (length (atleast_1d freq))).
Proof.
  intros i0 k0 temp freq delta0.
  unfold limit. set (lt := atleast_1d temp). set (lf := atleast_1d freq).
  destruct (all_gt0 lt) eqn:Hg; simpl negb.
  - apply all_gt0_true in Hg.
    destruct (compatible_dec (length lt) (length lf)) as [Hc | Hc].
    + rewrite broadcast_compatible by exact Hc.
      split; split.
      * discriminate.
      * tauto.
      * intros _; tauto.
      * intros _. eexists. reflexivity.
    + rewrite broadcast_incompatible by exact Hc.
      split; split.
      * intros _; tauto.
      * intros _; reflexivity.
      * intros [s Hs]; discriminate.
      * tauto.
  - assert (Hn : ~ Forall (fun T => 0 < T) lt).
    { intros Hf. apply all_gt0_true in Hf. congruence. }
    split; split.
    + discriminate.
    + tauto.
    + intros [s Hs]; discriminate.
    + tauto.
Qed.

(** [limit] reads the gap [delta0] only through its real part: changing the
    imaginary part (the zero-temperature loss of the docstring) never changes
    the outcome. *)
Theorem limit_ignores_imag_gap :
  forall i0 k0 temp freq d1 d2 d2',
    limit i0 k0 temp freq (d1, d2) = limit i0 k0 temp freq (d1, d2').
Proof. intros. reflexivity. Qed.

(** [limit] works entry by entry: on arrays of matching sizes, the result for
    concatenated arrays is the concatenation of the results, and it fails
    (with AssertionError) when either part fails. *)
Theorem limit_app :
  forall i0 k0 t1 t2 f1 f2 delta0,
    length t1 = length f1 -> length t2 = length f2 ->
    limit i0 k0 (Arr (t1 ++ t2)) (Arr (f1 ++ f2)) delta0 =
    match limit i0 k0 (Arr t1) (Arr f1) delta0,
          limit i0 k0 (Arr t2) (Arr f2) delta0 with
    | inr s1, inr s2 => inr (s1 ++ s2)
    | _, _ => inl AssertionError
    end.
Proof.
  intros i0 k0 t1 t2 f1 f2 delta0 H1 H2.
  unfold limit. cbn [atleast_1d].
  rewrite (broadcast_same_length (t1 ++ t2)) by (rewrite !length_app; lia).
  rewrite (broadcast_same_length t1) by exact H1.
  rewrite (broadcast_same_length t2) by exact H2.
  unfold all_gt0. rewrite forallb_app. fold (all_gt0 t1) (all_gt0 t2).
  destruct (all_gt0 t1), (all_gt0 t2); simpl; try reflexivity.
  rewrite combine_app_eq by exact H1. rewrite map_app. reflexivity.
Qed.

Lemma limit_app_witness :
  length [1] = length [1e9] /\ length [2] = length [2e9] /\
  limit (fun _ => 0) (fun _ => 0) (Arr ([1] ++ [2])) (Arr ([1e9] ++ [2e9])) (2e-23, 0) =
    match limit (fun _ => 0) (fun _ => 0) (Arr [1]) (Arr [1e9]) (2e-23, 0),
          limit (fun _ => 0) (fun _ => 0) (Arr [2]) (Arr [2e9]) (2e-23, 0) with
    | inr s1, inr s2 => inr (s1 ++ s2)
    | _, _ => inl AssertionError
    end.
Proof.
  assert (H1 : length [1] = length [1e9]) by reflexivity.
  assert (H2 : length [2] = length [2e9]) by reflexivity.
  split; [exact H1|]. split; [exact H2|].
  exact (limit_app (fun _ => 0) (fun _ => 0) [1] [2] [1e9] [2e9] (2e-23, 0) H1 H2).
Defined.

(** *** Signs and bounds of the closed form *)






(** *** [numeric] and its kernels *)

(** [numeric] treats every temperature independently: on a concatenated
    temperature array it returns the concatenation of the results. *)
Theorem numeric_app :
  forall fermi reduced_delta_bcs quad t1 t2 freq delta0 bcs,
    numeric fermi reduced_delta_bcs quad (Arr (t1 ++ t2)) freq delta0 bcs =
    numeric fermi reduced_delta_bcs quad (Arr t1) freq delta0 bcs ++
    numeric fermi reduced_delta_bcs quad (Arr t2) freq delta0 bcs.
Proof.
  intros. rewrite !numeric_map_entry. cbn [atleast_1d]. apply map_app.
Qed.

(** The real-part kernel is non-negative above the gap ([e > 1]) for a
    positive reduced frequency, whenever [fermi] does not increase with
    energy at the reduced temperature [t]. *)
Theorem sigma1_kernel_nonneg :
  forall fermi e t w,
    (forall x y, x <= y -> fermi y t <= fermi x t) ->
    1 < e -> 0 < w ->
    0 <= sigma1_kernel fermi e t w.
Proof.
  intros fermi e t w Hmono He Hw. unfold sigma1_kernel.
  assert (Hf : fermi (e + w) t <= fermi e t) by (apply Hmono; lra).
  apply Rle_mult_inv_pos.
  - apply Rmult_le_pos; [lra | simpl; nra].
  - apply Rmult_lt_0_compat; [apply Rmult_lt_0_compat; [exact Hw|]|];
      apply sqrt_lt_R0; simpl; nra.
Qed.

(** The Fermi-Dirac occupation [1 / (exp(e / t) + 1)], used to exercise
    the kernel theorems. *)
Definition fermi_dirac (e t : R) : R := / (exp (e / t) + 1).

Lemma fermi_dirac_nonincreasing (t : R) :
  0 < t -> forall x y, x <= y -> fermi_dirac y t <= fermi_dirac x t.
Proof.
  intros Ht x y Hxy. unfold fermi_dirac.
  assert (Hq : x / t <= y / t).
  { unfold Rdiv. apply Rmult_le_compat_r; [left; apply Rinv_0_lt_compat; lra | lra]. }
  assert (He : exp (x / t) <= exp (y / t)).
  { destruct Hq as [Hq | Hq]; [left; apply exp_increasing; exact Hq | rewrite Hq; lra]. }
  pose proof (exp_pos (x / t)).
  apply Rinv_le_contravar; lra.
Qed.

Lemma sigma1_kernel_nonneg_witness :
  (forall x y, x <= y -> fermi_dirac y 0.1 <= fermi_dirac x 0.1) /\
  1 < 2 /\ 0 < 0.5 /\ 0 <= sigma1_kernel fermi_dirac 2 0.1 0.5.
Proof.
  assert (H1 : forall x y, x <= y -> fermi_dirac y 0.1 <= fermi_dirac x 0.1)
    by (apply fermi_dirac_nonincreasing; lra).
  assert (H2 : 1 < 2) by lra. assert (H3 : 0 < 0.5) by lra.
  split; [exact H1|]. split; [exact H2|]. split; [exact H3|].
  exact (sigma1_kernel_nonneg fermi_dirac 2 0.1 0.5 H1 H2 H3).
Defined.

(** The imaginary-part kernel is non-negative on the open integration range
    [1 - w < e < 1] of [numeric] when [0 < w < 1] (the documented regime
    hf < Delta), whenever [fermi] is at most 1/2 at positive energies. *)
Theorem sigma2_kernel_nonneg :
  forall fermi e t w,
    (forall x, 0 < x -> fermi x t <= 1 / 2) ->
    0 < w < 1 -> 1 - w < e < 1 ->
    0 <= sigma2_kernel fermi e t w.
Proof.
  intros fermi e t w Hhalf Hw He. unfold sigma2_kernel.
  assert (Hf : fermi (e + w) t <= 1 / 2) by (apply Hhalf; lra).
  apply Rle_mult_inv_pos.
  - apply Rmult_le_pos; [lra | simpl; nra].
  - apply Rmult_lt_0_compat; [apply Rmult_lt_0_compat; [lra|]|];
      apply sqrt_lt_R0; simpl; nra.
Qed.

Lemma sigma2_kernel_nonneg_witness :
  (forall x, 0 < x -> (fun _ _ : R => 0) x 0.1 <= 1 / 2) /\
  0 < 0.5 < 1 /\ 1 - 0.5 < 0.9 < 1 /\
  0 <= sigma2_kernel (fun _ _ => 0) 0.9 0.1 0.5.
Proof.
  assert (H1 : forall x, 0 < x -> (fun _ _ : R => 0) x 0.1 <= 1 / 2) by (intros; lra).
  assert (H2 : 0 < 0.5 < 1) by lra. assert (H3 : 1 - 0.5 < 0.9 < 1) by lra.
  split; [exact H1|]. split; [exact H2|]. split; [exact H3|].
  exact (sigma2_kernel_nonneg (fun _ _ => 0) 0.9 0.1 0.5 H1 H2 H3).
Defined.
